(** * hodea-core-slib: byte-order conversion (hodea/core/cpu_endian.hpp)

    A shallow embedding of the byte-order conversion module and of the
    preprocessor chain that fixes the endianness of the target CPU.

    Unsigned integers of width W are modelled as [Z] restricted to
    [0 <= x < 2 ^ W]; bit operations are the ones of [Z]. *)

From Stdlib Require Import ZArith Lia Bool String List.
From stdpp Require Import base gmap strings.
Import ListNotations.

Local Open Scope Z_scope.

(** ** Fixed-width unsigned values (hodea/core/cstdint.hpp) *)

(** [x] is a value of the type [uintW_t]. *)
Definition is_uint (W x : Z) : Prop := 0 <= x < 2 ^ W.

(** The operator [~] on a [uintW_t], the result taken back to [uintW_t]:
    every one of the W bits is flipped and nothing above them is set. *)
Definition bnot (W x : Z) : Z := Z.land (Z.lnot x) (Z.ones W).

(** The byte at position [i] (position 0 is the least significant byte). *)
Definition byte_at (i x : Z) : Z := Z.land (Z.shiftr x (8 * i)) 0xff.

(** [y] is [x] with its [N]-byte representation reversed: [y] is an
    [N]-byte value, and the byte at position [i] of [x] is found at
    position [N - 1 - i] of [y]. *)
Definition bytes_reversed (N x y : Z) : Prop :=
  is_uint (8 * N) y /\
  forall i, 0 <= i < N -> byte_at (N - 1 - i) y = byte_at i x.

(** ** Unconditional byte swap (hodea/core/uswap.hpp) *)

(** Modelled from the spec: hodea/core/uswap.hpp, which cpu_endian.hpp
    includes for [uswap16], [uswap32] and [uswap64], is not among the
    sources.  The spec gives the algorithm: "byte reversal of a W-bit
    unsigned integer -- shift-and-mask decomposition into W/8 bytes,
    reassembled in reverse order". *)
Definition uswap16 (x : Z) : Z :=
  Z.lor (Z.shiftl (byte_at 0 x) 8)
        (byte_at 1 x).

(** Modelled from the spec: hodea/core/uswap.hpp is not among the sources;
    shift-and-mask decomposition into four bytes, reassembled in reverse
    order. *)
Definition uswap32 (x : Z) : Z :=
  Z.lor (Z.shiftl (byte_at 0 x) 24)
 (Z.lor (Z.shiftl (byte_at 1 x) 16)
 (Z.lor (Z.shiftl (byte_at 2 x) 8)
        (byte_at 3 x))).

(** Modelled from the spec: hodea/core/uswap.hpp is not among the sources;
    shift-and-mask decomposition into eight bytes, reassembled in reverse
    order. *)
Definition uswap64 (x : Z) : Z :=
  Z.lor (Z.shiftl (byte_at 0 x) 56)
 (Z.lor (Z.shiftl (byte_at 1 x) 48)
 (Z.lor (Z.shiftl (byte_at 2 x) 40)
 (Z.lor (Z.shiftl (byte_at 3 x) 32)
 (Z.lor (Z.shiftl (byte_at 4 x) 24)
 (Z.lor (Z.shiftl (byte_at 5 x) 16)
 (Z.lor (Z.shiftl (byte_at 6 x) 8)
        (byte_at 7 x))))))).

(** ** Detection of the CPU endianness (cpu_endian.hpp, lines 33-72)

    The preprocessor keeps a table of macros.  A macro whose replacement
    is an integer constant is stored with that value; the replacements
    [true] and [false] are stored as 1 and 0, the values they have both
    in an [#if] and when converted to [bool]. *)
Module Preproc.

(** [defined NAME] *)
Definition defined (m : gmap string Z) (name : string) : bool :=
  match m !! name with
  | Some _ => true
  | None => false
  end.

(** The value of an identifier inside an [#if]: an identifier that is
    not a macro evaluates to 0. *)
Definition value (m : gmap string Z) (name : string) : Z :=
  match m !! name with
  | Some v => v
  | None => 0
  end.

(** [#define NAME v] *)
Definition define (name : string) (v : Z) (m : gmap string Z) : gmap string Z :=
  <[name := v]> m.

(** Lines 33-67: the chain of toolchain-specific branches. *)
Definition detect (m : gmap string Z) : gmap string Z :=
  if defined m "__GNUC__" || defined m "__clang__" then
    if value m "__BYTE_ORDER__" =? value m "__ORDER_LITTLE_ENDIAN__" then
      define "HODEA_IS_CPU_LE" 1 m
    else if value m "__BYTE_ORDER__" =? value m "__ORDER_BIG_ENDIAN__" then
      define "HODEA_IS_CPU_LE" 0 m
    else m
  else if defined m "__CC_ARM" then
    if defined m "__BIG_ENDIAN" then
      define "HODEA_IS_CPU_LE" 0 m
    else
      define "HODEA_IS_CPU_LE" 1 m
  else if defined m "__ICCARM__" then
    if value m "__LITTLE_ENDIAN__" =? 0 then
      define "HODEA_IS_CPU_LE" 0 m
    else if value m "__LITTLE_ENDIAN__" =? 1 then
      define "HODEA_IS_CPU_LE" 1 m
    else m
  else m.

(** The outcome of translating the header: either the build goes on with
    the value of [HODEA_IS_CPU_LE] as a [bool], or the [#error]
    directives stop it with their messages. *)
Inductive outcome : Type :=
  | Configured (HODEA_IS_CPU_LE : bool)
  | BuildError (diagnostics : list string).

(** Lines 69-72. *)
Definition configure (m : gmap string Z) : outcome :=
  let m' := detect m in
  if negb (defined m' "HODEA_IS_CPU_LE") then
    BuildError
      [ "Unable to detect cpu endianness via predefined macros.";
        "Please provide HODEA_IS_CPU_LE = true or false via command line." ]%string
  else
    Configured (negb (value m' "HODEA_IS_CPU_LE" =? 0)).

(** [mentions needle text]: [needle] occurs in [text]. *)
Fixpoint mentions (needle text : string) : bool :=
  String.prefix needle text ||
  match text with
  | EmptyString => false
  | String _ rest => mentions needle rest
  end.

End Preproc.

(** ** The conversion functions (cpu_endian.hpp, lines 74-186) *)

Section cpu_endian.

(** The macro [HODEA_IS_CPU_LE] of a build that was configured. *)
Variable HODEA_IS_CPU_LE : bool.

Definition HODEA_IS_CPU_BE : bool := negb HODEA_IS_CPU_LE.

(** Test if CPU uses the little endian format. *)
Definition is_cpu_le : bool := HODEA_IS_CPU_LE.

(** Test if CPU uses the big endian format. *)
Definition is_cpu_be : bool := HODEA_IS_CPU_BE.

Definition cpu_to_le16 (x : Z) : Z := if is_cpu_le then x else uswap16 x.
Definition cpu_to_le32 (x : Z) : Z := if is_cpu_le then x else uswap32 x.
Definition cpu_to_le64 (x : Z) : Z := if is_cpu_le then x else uswap64 x.

Definition cpu_to_be16 (x : Z) : Z := if is_cpu_be then x else uswap16 x.
Definition cpu_to_be32 (x : Z) : Z := if is_cpu_be then x else uswap32 x.
Definition cpu_to_be64 (x : Z) : Z := if is_cpu_be then x else uswap64 x.

Definition le16_to_cpu (x : Z) : Z := cpu_to_le16 x.
Definition le32_to_cpu (x : Z) : Z := cpu_to_le32 x.
Definition le64_to_cpu (x : Z) : Z := cpu_to_le64 x.

Definition be16_to_cpu (x : Z) : Z := cpu_to_be16 x.
Definition be32_to_cpu (x : Z) : Z := cpu_to_be32 x.
Definition be64_to_cpu (x : Z) : Z := cpu_to_be64 x.

End cpu_endian.

(** The twelve exported conversion functions, each with the width of its
    argument and result. *)
Definition conversions : list (Z * (bool -> Z -> Z)) :=
  [ (16, cpu_to_le16); (32, cpu_to_le32); (64, cpu_to_le64);
    (16, cpu_to_be16); (32, cpu_to_be32); (64, cpu_to_be64);
    (16, le16_to_cpu); (32, le32_to_cpu); (64, le64_to_cpu);
    (16, be16_to_cpu); (32, be32_to_cpu); (64, be64_to_cpu) ].

(** The macros that lines 33-72 of cpu_endian.hpp look at. *)
Definition inspected : list string :=
  [ "__GNUC__"; "__clang__"; "__BYTE_ORDER__"; "__ORDER_LITTLE_ENDIAN__";
    "__ORDER_BIG_ENDIAN__"; "__CC_ARM"; "__BIG_ENDIAN"; "__ICCARM__";
    "__LITTLE_ENDIAN__"; "HODEA_IS_CPU_LE" ]%string.

(** ** Device dispatch of the HAL headers (hodea/device/hal)

    Both headers read the device properties and then choose by the brand
    macro.  The functions below take the macro table as it is when the
    [#if] is reached, after the header with the device properties. *)
Module Hal.

(** What the chain of one header does: it includes the header of the
    brand, or an [#error] stops the build with its message. *)
Inductive dispatch : Type :=
  | Include (header : string)
  | Stop (diagnostic : string).

(** hal_pin_config.hpp, lines 15-19. *)
Definition hal_pin_config (m : gmap string Z) : dispatch :=
  if Preproc.defined m "HODEA_DERIVED_CONFIG_BRAND_STM32" then
    Include "hodea/device/stm32/stm32_pin_config.hpp"
  else
    Stop "Unsupported device.".

(** retarget_stdout_uart.hpp, lines 13-19. *)
Definition retarget_stdout_uart (m : gmap string Z) : dispatch :=
  if Preproc.defined m "HODEA_DERIVED_CONFIG_BRAND_STM32" then
    Include "hodea/device/stm32/retarget_stdout_uart.hpp"
  else if Preproc.defined m "HODEA_DERIVED_CONFIG_BRAND_IMX_M4" then
    Stop "imx_m4 not yet supported"
  else
    Stop "Unsupported device.".

End Hal.

(** * Bit-level facts *)

Lemma is_uint_testbit_high W x n :
  0 <= W -> is_uint W x -> W <= n -> Z.testbit x n = false.
Proof.
  intros HW Hx Hn.
  rewrite <- (Z.mod_small x (2 ^ W)) by exact Hx.
  apply Z.mod_pow2_bits_high. lia.
Qed.

Lemma is_uint_of_bits W x :
  0 <= W -> 0 <= x -> (forall n, W <= n -> Z.testbit x n = false) ->
  is_uint W x.
Proof.
  intros HW Hx Hhigh.
  assert (x = x mod 2 ^ W) as ->.
  { apply Z.bits_inj'. intros n Hn.
    destruct (Z.lt_ge_cases n W) as [Hlt|Hge].
    - now rewrite Z.mod_pow2_bits_low.
    - rewrite Z.mod_pow2_bits_high by lia. now apply Hhigh. }
  apply Z.mod_pos_bound. now apply Z.pow_pos_nonneg.
Qed.

Lemma testbit_bnot W x n :
  0 <= W -> 0 <= n ->
  Z.testbit (bnot W x) n = (n <? W) && negb (Z.testbit x n).
Proof.
  intros HW Hn. unfold bnot.
  rewrite Z.land_spec, Z.lnot_spec by lia.
  destruct (Z.ltb_spec n W).
  - rewrite Z.ones_spec_low by lia. now rewrite andb_true_r.
  - rewrite Z.ones_spec_high by lia. now rewrite andb_false_r.
Qed.

Lemma bnot_is_uint W x : 0 <= W -> is_uint W (bnot W x).
Proof.
  intros HW. unfold bnot, is_uint.
  rewrite Z.land_ones by lia. apply Z.mod_pos_bound.
  now apply Z.pow_pos_nonneg.
Qed.

Lemma byte_at_nonneg i x : 0 <= byte_at i x.
Proof. unfold byte_at. apply Z.land_nonneg. right. lia. Qed.

Lemma testbit_byte_at i x n :
  0 <= i ->
  Z.testbit (byte_at i x) n = (0 <=? n) && (n <? 8) && Z.testbit x (n + 8 * i).
Proof.
  intros Hi. unfold byte_at.
  destruct (Z.leb_spec 0 n) as [Hn|Hn]; [|now rewrite Z.testbit_neg_r].
  change 0xff with (Z.ones 8).
  rewrite Z.land_spec, Z.shiftr_spec by lia.
  destruct (Z.ltb_spec n 8).
  - rewrite Z.ones_spec_low by lia. now rewrite andb_true_r.
  - rewrite Z.ones_spec_high by lia. now rewrite andb_false_r.
Qed.

(** One term of a swap: byte [i] of [x] placed [s] bits up. *)
Lemma testbit_lane i s x n :
  0 <= i -> 0 <= s ->
  Z.testbit (Z.shiftl (byte_at i x) s) n
  = (s <=? n) && (n <? s + 8) && Z.testbit x (n - s + 8 * i).
Proof.
  intros Hi Hs.
  destruct (Z.leb_spec 0 n) as [Hn|Hn].
  - rewrite Z.shiftl_spec, testbit_byte_at by lia.
    destruct (Z.leb_spec s n) as [H1|H1].
    + replace (0 <=? n - s) with true by (symmetry; apply Z.leb_le; lia).
      replace (n - s <? 8) with (n <? s + 8); [reflexivity|].
      destruct (Z.ltb_spec (n - s) 8), (Z.ltb_spec n (s + 8)); trivial; lia.
    + replace (0 <=? n - s) with false by (symmetry; apply Z.leb_gt; lia).
      reflexivity.
  - rewrite Z.testbit_neg_r by lia.
    replace (s <=? n) with false by (symmetry; apply Z.leb_gt; lia).
    reflexivity.
Qed.

(** Settle every comparison of the goal whose outcome [lia] can tell. *)
Ltac decide_cmp :=
  repeat match goal with
  | |- context [?a <=? ?b] =>
      let H := fresh in
      destruct (Z.leb_spec a b) as [H|H]; try (exfalso; lia); clear H
  | |- context [?a <? ?b] =>
      let H := fresh in
      destruct (Z.ltb_spec a b) as [H|H]; try (exfalso; lia); clear H
  end.

(** Rewrite a swap into the boolean sum of its lanes at bit [n]. *)
Ltac swap_lanes last :=
  rewrite !Z.lor_spec;
  rewrite <- (Z.shiftl_0_r last);
  rewrite !testbit_lane by lia.

Ltac same_bit x := apply (f_equal (Z.testbit x)); lia.

Lemma uswap16_nonneg x : 0 <= uswap16 x.
Proof.
  unfold uswap16.
  repeat (apply Z.lor_nonneg; split);
    try apply Z.shiftl_nonneg; apply byte_at_nonneg.
Qed.

Lemma uswap32_nonneg x : 0 <= uswap32 x.
Proof.
  unfold uswap32.
  repeat (apply Z.lor_nonneg; split);
    try apply Z.shiftl_nonneg; apply byte_at_nonneg.
Qed.

Lemma uswap64_nonneg x : 0 <= uswap64 x.
Proof.
  unfold uswap64.
  repeat (apply Z.lor_nonneg; split);
    try apply Z.shiftl_nonneg; apply byte_at_nonneg.
Qed.

Lemma testbit_uswap16_byte x k j :
  0 <= k < 2 -> 0 <= j < 8 ->
  Z.testbit (uswap16 x) (8 * k + j) = Z.testbit x (8 * (1 - k) + j).
Proof.
  intros Hk Hj. unfold uswap16. swap_lanes (byte_at 1 x).
  assert (k = 0 \/ k = 1) as Hc by lia.
  destruct Hc; subst k; decide_cmp; cbn [andb orb];
    rewrite ?orb_false_r; same_bit x.
Qed.

Lemma testbit_uswap32_byte x k j :
  0 <= k < 4 -> 0 <= j < 8 ->
  Z.testbit (uswap32 x) (8 * k + j) = Z.testbit x (8 * (3 - k) + j).
Proof.
  intros Hk Hj. unfold uswap32. swap_lanes (byte_at 3 x).
  assert (k = 0 \/ k = 1 \/ k = 2 \/ k = 3) as Hc by lia.
  repeat destruct Hc as [->|Hc]; try subst k; decide_cmp; cbn [andb orb];
    rewrite ?orb_false_r; same_bit x.
Qed.

Lemma testbit_uswap64_byte x k j :
  0 <= k < 8 -> 0 <= j < 8 ->
  Z.testbit (uswap64 x) (8 * k + j) = Z.testbit x (8 * (7 - k) + j).
Proof.
  intros Hk Hj. unfold uswap64. swap_lanes (byte_at 7 x).
  assert (k = 0 \/ k = 1 \/ k = 2 \/ k = 3 \/
          k = 4 \/ k = 5 \/ k = 6 \/ k = 7) as Hc by lia.
  repeat destruct Hc as [->|Hc]; try subst k; decide_cmp; cbn [andb orb];
    rewrite ?orb_false_r; same_bit x.
Qed.

Lemma testbit_uswap16_high x n : 16 <= n -> Z.testbit (uswap16 x) n = false.
Proof.
  intros Hn. unfold uswap16. swap_lanes (byte_at 1 x).
  decide_cmp. reflexivity.
Qed.

Lemma testbit_uswap32_high x n : 32 <= n -> Z.testbit (uswap32 x) n = false.
Proof.
  intros Hn. unfold uswap32. swap_lanes (byte_at 3 x).
  decide_cmp. reflexivity.
Qed.

Lemma testbit_uswap64_high x n : 64 <= n -> Z.testbit (uswap64 x) n = false.
Proof.
  intros Hn. unfold uswap64. swap_lanes (byte_at 7 x).
  decide_cmp. reflexivity.
Qed.

(** Two values with the same reversed bytes are the same value. *)
Lemma bytes_reversed_unique N x y y' :
  0 < N -> bytes_reversed N x y -> bytes_reversed N x y' -> y = y'.
Proof.
  intros HN [Hy Hb] [Hy' Hb'].
  apply Z.bits_inj'. intros n Hn.
  destruct (Z.lt_ge_cases n (8 * N)) as [Hlt|Hge].
  - assert (0 <= n / 8 < N) as Hq by (Z.div_mod_to_equations; lia).
    assert (0 <= n mod 8 < 8) as Hr by (Z.div_mod_to_equations; lia).
    assert (n mod 8 + 8 * (n / 8) = n) as Hn8
      by (Z.div_mod_to_equations; lia).
    assert (byte_at (n / 8) y = byte_at (n / 8) y') as Heq.
    { replace (n / 8) with (N - 1 - (N - 1 - n / 8)) by lia.
      rewrite Hb, Hb' by lia. reflexivity. }
    apply (f_equal (fun b => Z.testbit b (n mod 8))) in Heq.
    rewrite !testbit_byte_at, Hn8 in Heq by lia.
    revert Heq. decide_cmp. cbn [andb]. trivial.
  - rewrite !(is_uint_testbit_high (8 * N)); trivial; lia.
Qed.

(** ** What follows from the bits of a byte swap, for any number of bytes *)

Section ByteReversal.
Local Set Default Proof Using "All".

Variable N : Z.
Variable swap : Z -> Z.
Hypothesis N_pos : 0 < N.
Hypothesis swap_nonneg : forall x, 0 <= swap x.
Hypothesis swap_byte : forall x k j,
  0 <= k < N -> 0 <= j < 8 ->
  Z.testbit (swap x) (8 * k + j) = Z.testbit x (8 * (N - 1 - k) + j).
Hypothesis swap_high : forall x n,
  8 * N <= n -> Z.testbit (swap x) n = false.

Lemma split_bit n :
  0 <= n < 8 * N ->
  exists k j, n = 8 * k + j /\ 0 <= k < N /\ 0 <= j < 8.
Proof.
  intros Hn. exists (n / 8), (n mod 8).
  Z.div_mod_to_equations. lia.
Qed.

Lemma swap_is_uint x : is_uint (8 * N) (swap x).
Proof.
  apply is_uint_of_bits; [lia|apply swap_nonneg|].
  intros n Hn. now apply swap_high.
Qed.

Lemma swap_byte_at x i :
  0 <= i < N -> byte_at (N - 1 - i) (swap x) = byte_at i x.
Proof.
  intros Hi. apply Z.bits_inj'. intros n Hn.
  rewrite !testbit_byte_at by lia.
  destruct (Z.ltb_spec n 8) as [Hlt|Hge].
  - replace (n + 8 * (N - 1 - i)) with (8 * (N - 1 - i) + n) by lia.
    rewrite swap_byte by lia.
    f_equal. same_bit x.
  - now rewrite !andb_false_r.
Qed.

Lemma swap_reverses x : bytes_reversed N x (swap x).
Proof.
  split; [apply swap_is_uint|].
  intros i Hi. now apply swap_byte_at.
Qed.

Lemma swap_involutive x : is_uint (8 * N) x -> swap (swap x) = x.
Proof.
  intros Hx. apply Z.bits_inj'. intros n Hn.
  destruct (Z.lt_ge_cases n (8 * N)) as [Hlt|Hge].
  - destruct (split_bit n) as (k & j & -> & Hk & Hj); [lia|].
    rewrite !swap_byte by lia. same_bit x.
  - rewrite swap_high by lia.
    symmetry. apply (is_uint_testbit_high (8 * N)); trivial; lia.
Qed.

Lemma swap_bnot x : swap (bnot (8 * N) x) = bnot (8 * N) (swap x).
Proof.
  apply Z.bits_inj'. intros n Hn.
  destruct (Z.lt_ge_cases n (8 * N)) as [Hlt|Hge].
  - destruct (split_bit n) as (k & j & -> & Hk & Hj); [lia|].
    rewrite swap_byte, !testbit_bnot, swap_byte by lia.
    decide_cmp. reflexivity.
  - rewrite swap_high, testbit_bnot by lia.
    decide_cmp. reflexivity.
Qed.

Lemma swap_land x y : swap (Z.land x y) = Z.land (swap x) (swap y).
Proof.
  apply Z.bits_inj'. intros n Hn. rewrite Z.land_spec.
  destruct (Z.lt_ge_cases n (8 * N)) as [Hlt|Hge].
  - destruct (split_bit n) as (k & j & -> & Hk & Hj); [lia|].
    rewrite !swap_byte by lia. apply Z.land_spec.
  - now rewrite !swap_high by lia.
Qed.

Lemma swap_lor x y : swap (Z.lor x y) = Z.lor (swap x) (swap y).
Proof.
  apply Z.bits_inj'. intros n Hn. rewrite Z.lor_spec.
  destruct (Z.lt_ge_cases n (8 * N)) as [Hlt|Hge].
  - destruct (split_bit n) as (k & j & -> & Hk & Hj); [lia|].
    rewrite !swap_byte by lia. apply Z.lor_spec.
  - now rewrite !swap_high by lia.
Qed.

Lemma swap_lxor x y : swap (Z.lxor x y) = Z.lxor (swap x) (swap y).
Proof.
  apply Z.bits_inj'. intros n Hn. rewrite Z.lxor_spec.
  destruct (Z.lt_ge_cases n (8 * N)) as [Hlt|Hge].
  - destruct (split_bit n) as (k & j & -> & Hk & Hj); [lia|].
    rewrite !swap_byte by lia. apply Z.lxor_spec.
  - now rewrite !swap_high by lia.
Qed.

End ByteReversal.

(** ** The three swaps *)

Lemma uswap16_reverses x : bytes_reversed 2 x (uswap16 x).
Proof.
  apply swap_reverses;
    [lia|apply uswap16_nonneg|apply testbit_uswap16_byte|
     apply testbit_uswap16_high].
Qed.

Lemma uswap32_reverses x : bytes_reversed 4 x (uswap32 x).
Proof.
  apply swap_reverses;
    [lia|apply uswap32_nonneg|apply testbit_uswap32_byte|
     apply testbit_uswap32_high].
Qed.

Lemma uswap64_reverses x : bytes_reversed 8 x (uswap64 x).
Proof.
  apply swap_reverses;
    [lia|apply uswap64_nonneg|apply testbit_uswap64_byte|
     apply testbit_uswap64_high].
Qed.

Lemma uswap16_is_uint x : is_uint 16 (uswap16 x).
Proof. exact (proj1 (uswap16_reverses x)). Qed.

Lemma uswap32_is_uint x : is_uint 32 (uswap32 x).
Proof. exact (proj1 (uswap32_reverses x)). Qed.

Lemma uswap64_is_uint x : is_uint 64 (uswap64 x).
Proof. exact (proj1 (uswap64_reverses x)). Qed.

Lemma uswap16_involutive x : is_uint 16 x -> uswap16 (uswap16 x) = x.
Proof.
  apply (swap_involutive 2);
    [lia|apply uswap16_nonneg|apply testbit_uswap16_byte|
     apply testbit_uswap16_high].
Qed.

Lemma uswap32_involutive x : is_uint 32 x -> uswap32 (uswap32 x) = x.
Proof.
  apply (swap_involutive 4);
    [lia|apply uswap32_nonneg|apply testbit_uswap32_byte|
     apply testbit_uswap32_high].
Qed.

Lemma uswap64_involutive x : is_uint 64 x -> uswap64 (uswap64 x) = x.
Proof.
  apply (swap_involutive 8);
    [lia|apply uswap64_nonneg|apply testbit_uswap64_byte|
     apply testbit_uswap64_high].
Qed.

Lemma uswap16_bnot x : uswap16 (bnot 16 x) = bnot 16 (uswap16 x).
Proof.
  apply (swap_bnot 2);
    [lia|apply uswap16_nonneg|apply testbit_uswap16_byte|
     apply testbit_uswap16_high].
Qed.

Lemma uswap32_bnot x : uswap32 (bnot 32 x) = bnot 32 (uswap32 x).
Proof.
  apply (swap_bnot 4);
    [lia|apply uswap32_nonneg|apply testbit_uswap32_byte|
     apply testbit_uswap32_high].
Qed.

Lemma uswap64_bnot x : uswap64 (bnot 64 x) = bnot 64 (uswap64 x).
Proof.
  apply (swap_bnot 8);
    [lia|apply uswap64_nonneg|apply testbit_uswap64_byte|
     apply testbit_uswap64_high].
Qed.

(** ** Facts shared by the statements about the conversion functions *)

Lemma cpu_to_le_be16 le x : cpu_to_le16 le (cpu_to_be16 le x) = uswap16 x.
Proof. now destruct le. Qed.

Lemma cpu_to_le_be32 le x : cpu_to_le32 le (cpu_to_be32 le x) = uswap32 x.
Proof. now destruct le. Qed.

Lemma cpu_to_le_be64 le x : cpu_to_le64 le (cpu_to_be64 le x) = uswap64 x.
Proof. now destruct le. Qed.

Lemma cpu_to_be_le16 le x : cpu_to_be16 le (cpu_to_le16 le x) = uswap16 x.
Proof. now destruct le. Qed.

Lemma cpu_to_be_le32 le x : cpu_to_be32 le (cpu_to_le32 le x) = uswap32 x.
Proof. now destruct le. Qed.

Lemma cpu_to_be_le64 le x : cpu_to_be64 le (cpu_to_le64 le x) = uswap64 x.
Proof. now destruct le. Qed.

(** The members of the table, one by one. *)
Ltac each_conversion H :=
  cbn [conversions In] in H;
  repeat (destruct H as [H|H]; [injection H as <- <-|]);
  [..|contradiction H].

Ltac unfold_conversions :=
  unfold le16_to_cpu, le32_to_cpu, le64_to_cpu,
         be16_to_cpu, be32_to_cpu, be64_to_cpu,
         cpu_to_le16, cpu_to_le32, cpu_to_le64,
         cpu_to_be16, cpu_to_be32, cpu_to_be64,
         is_cpu_le, is_cpu_be, HODEA_IS_CPU_BE.

(** Split the conjunctions that are written in the goal, and only those. *)
Ltac split_all :=
  repeat lazymatch goal with |- _ /\ _ => split end.

(** A goal about one conversion once its branch is chosen. *)
Ltac conversion_goal :=
  lazymatch goal with
  | |- bytes_reversed _ _ (uswap16 _) => apply uswap16_reverses
  | |- bytes_reversed _ _ (uswap32 _) => apply uswap32_reverses
  | |- bytes_reversed _ _ (uswap64 _) => apply uswap64_reverses
  | |- is_uint _ (uswap16 _) => apply uswap16_is_uint
  | |- is_uint _ (uswap32 _) => apply uswap32_is_uint
  | |- is_uint _ (uswap64 _) => apply uswap64_is_uint
  | |- _ => first [assumption|reflexivity]
  end.

Lemma conversion_is_uint W f le x :
  In (W, f) conversions -> is_uint W x -> is_uint W (f le x).
Proof.
  intros Hf Hx. each_conversion Hf; unfold_conversions;
    destruct le; cbn [negb]; conversion_goal.
Qed.

Lemma configure_unrecognized (m : gmap string Z) :
  m !! "HODEA_IS_CPU_LE" = None ->
  m !! "__GNUC__" = None -> m !! "__clang__" = None ->
  m !! "__CC_ARM" = None -> m !! "__ICCARM__" = None ->
  Preproc.configure m = Preproc.BuildError
    [ "Unable to detect cpu endianness via predefined macros.";
      "Please provide HODEA_IS_CPU_LE = true or false via command line."
    ]%string.
Proof.
  intros Huser Hgnu Hclang Harm Hiar.
  unfold Preproc.configure, Preproc.detect, Preproc.defined.
  rewrite Hgnu, Hclang, Harm, Hiar. cbn [orb].
  rewrite Huser. reflexivity.
Qed.

(** A GCC or clang target that is neither little nor big endian (PDP
    endian) is not given a value either. *)
Lemma configure_pdp_endian (m : gmap string Z) (gnuc : Z) :
  m !! "HODEA_IS_CPU_LE" = None ->
  m !! "__GNUC__" = Some gnuc ->
  m !! "__ORDER_LITTLE_ENDIAN__" = Some 1234 ->
  m !! "__ORDER_BIG_ENDIAN__" = Some 4321 ->
  m !! "__BYTE_ORDER__" = Some 3412 ->
  exists diag, Preproc.configure m = Preproc.BuildError diag.
Proof.
  intros Huser Hgnu Hle Hbe Hbo.
  unfold Preproc.configure, Preproc.detect, Preproc.defined, Preproc.value.
  rewrite Hgnu, Hle, Hbe, Hbo. cbn [orb Z.eqb Pos.eqb].
  rewrite Huser. cbn [negb]. eauto.
Qed.

(** * The contract of the module *)

(** C1. When the native byte order is the target order, [cpu_to_<O><W>]
    returns its argument unchanged; otherwise it returns the argument with
    its W-bit representation byte-reversed (the byte at position [i] is
    moved to position [W/8 - 1 - i]).  So a little-endian build has
    identities for [cpu_to_le16/32/64] and reversals for
    [cpu_to_be16/32/64], and a big-endian build the other way round. *)
Theorem cpu_to_order_contract (x16 x32 x64 : Z) :
  is_uint 16 x16 -> is_uint 32 x32 -> is_uint 64 x64 ->
  (is_cpu_le true = true /\
   cpu_to_le16 true x16 = x16 /\
   cpu_to_le32 true x32 = x32 /\
   cpu_to_le64 true x64 = x64 /\
   bytes_reversed 2 x16 (cpu_to_be16 true x16) /\
   bytes_reversed 4 x32 (cpu_to_be32 true x32) /\
   bytes_reversed 8 x64 (cpu_to_be64 true x64)) /\
  (is_cpu_be false = true /\
   cpu_to_be16 false x16 = x16 /\
   cpu_to_be32 false x32 = x32 /\
   cpu_to_be64 false x64 = x64 /\
   bytes_reversed 2 x16 (cpu_to_le16 false x16) /\
   bytes_reversed 4 x32 (cpu_to_le32 false x32) /\
   bytes_reversed 8 x64 (cpu_to_le64 false x64)).
Proof.
  intros _ _ _. unfold_conversions. cbn [negb].
  split_all; conversion_goal.
Qed.

Lemma cpu_to_order_contract_witness :
  (is_uint 16 0x0102 /\ is_uint 32 0x01020304 /\
   is_uint 64 0x0102030405060708) /\
  bytes_reversed 2 0x0102 (cpu_to_be16 true 0x0102) /\
  bytes_reversed 8 0x0102030405060708
    (cpu_to_le64 false 0x0102030405060708).
Proof.
  assert (is_uint 16 0x0102) as H16 by (unfold is_uint; lia).
  assert (is_uint 32 0x01020304) as H32 by (unfold is_uint; lia).
  assert (is_uint 64 0x0102030405060708) as H64 by (unfold is_uint; lia).
  split; [auto|].
  pose proof (cpu_to_order_contract _ _ _ H16 H32 H64) as [Hle Hbe].
  split; [apply Hle|apply Hbe].
Defined.

(** C2. The values of the conversions at the sample arguments: on a
    little-endian target the big-endian conversions reverse 0x0102,
    0x01020304 and 0x0102030405060708, [cpu_to_le16] keeps 0xABCD and
    [cpu_to_be16] turns it into 0xCDAB; on a big-endian target the last
    two results are exchanged. *)
Theorem sample_conversions :
  (cpu_to_be16 true 0x0102 = 0x0201 /\
   cpu_to_be32 true 0x01020304 = 0x04030201 /\
   cpu_to_be64 true 0x0102030405060708 = 0x0807060504030201 /\
   cpu_to_le16 true 0xABCD = 0xABCD /\
   cpu_to_be16 true 0xABCD = 0xCDAB) /\
  (cpu_to_be16 false 0xABCD = 0xABCD /\
   cpu_to_le16 false 0xABCD = 0xCDAB).
Proof. split_all; vm_compute; reflexivity. Qed.

(** C3. Each function of the "to CPU" direction is the function of the
    "from CPU" direction of the same order and width, in either build. *)
Theorem to_cpu_is_cpu_to (le : bool) (x : Z) :
  le16_to_cpu le x = cpu_to_le16 le x /\
  le32_to_cpu le x = cpu_to_le32 le x /\
  le64_to_cpu le x = cpu_to_le64 le x /\
  be16_to_cpu le x = cpu_to_be16 le x /\
  be32_to_cpu le x = cpu_to_be32 le x /\
  be64_to_cpu le x = cpu_to_be64 le x.
Proof. split_all; reflexivity. Qed.

(** C4. Involution: converting to an order and back gives the original
    value, in either build; when the target order is not the native one,
    applying the same [cpu_to_<O><W>] twice gives the original value,
    because the byte swap below it undoes itself. *)
Theorem conversion_involution (le : bool) (x16 x32 x64 : Z) :
  is_uint 16 x16 -> is_uint 32 x32 -> is_uint 64 x64 ->
  (le16_to_cpu le (cpu_to_le16 le x16) = x16 /\
   le32_to_cpu le (cpu_to_le32 le x32) = x32 /\
   le64_to_cpu le (cpu_to_le64 le x64) = x64 /\
   be16_to_cpu le (cpu_to_be16 le x16) = x16 /\
   be32_to_cpu le (cpu_to_be32 le x32) = x32 /\
   be64_to_cpu le (cpu_to_be64 le x64) = x64) /\
  (is_cpu_le le = false ->
   cpu_to_le16 le (cpu_to_le16 le x16) = x16 /\
   cpu_to_le32 le (cpu_to_le32 le x32) = x32 /\
   cpu_to_le64 le (cpu_to_le64 le x64) = x64) /\
  (is_cpu_be le = false ->
   cpu_to_be16 le (cpu_to_be16 le x16) = x16 /\
   cpu_to_be32 le (cpu_to_be32 le x32) = x32 /\
   cpu_to_be64 le (cpu_to_be64 le x64) = x64) /\
  (uswap16 (uswap16 x16) = x16 /\
   uswap32 (uswap32 x32) = x32 /\
   uswap64 (uswap64 x64) = x64).
Proof.
  intros H16 H32 H64.
  pose proof (uswap16_involutive x16 H16) as S16.
  pose proof (uswap32_involutive x32 H32) as S32.
  pose proof (uswap64_involutive x64 H64) as S64.
  unfold_conversions.
  destruct le; cbn [negb]; split_all; intros; split_all;
    first [assumption|reflexivity|discriminate].
Qed.

Lemma conversion_involution_witness :
  (is_uint 16 0xABCD /\ is_uint 32 0xDEADBEEF /\
   is_uint 64 0x0123456789ABCDEF) /\
  be16_to_cpu true (cpu_to_be16 true 0xABCD) = 0xABCD /\
  be32_to_cpu true (cpu_to_be32 true 0xDEADBEEF) = 0xDEADBEEF /\
  uswap64 (uswap64 0x0123456789ABCDEF) = 0x0123456789ABCDEF.
Proof.
  assert (is_uint 16 0xABCD) as H16 by (unfold is_uint; lia).
  assert (is_uint 32 0xDEADBEEF) as H32 by (unfold is_uint; lia).
  assert (is_uint 64 0x0123456789ABCDEF) as H64 by (unfold is_uint; lia).
  split; [auto|].
  pose proof (conversion_involution true _ _ _ H16 H32 H64)
    as (Hback & _ & _ & Hswap).
  split; [apply Hback|split; [apply Hback|apply Hswap]].
Defined.

(** C5. The two endianness queries exclude each other and one of them
    holds: [is_cpu_le() != is_cpu_be()] in every build. *)
Theorem is_cpu_le_xor_be (le : bool) :
  is_cpu_le le <> is_cpu_be le /\
  xorb (is_cpu_le le) (is_cpu_be le) = true.
Proof. destruct le; (split; [discriminate|reflexivity]). Qed.

(** C6. When no recognized toolchain macro is defined and the user gave no
    value for [HODEA_IS_CPU_LE], the build stops, and one of its
    diagnostics names the override [HODEA_IS_CPU_LE = true or false].
    No conversion function can fail at run time: every value of the width
    of the function is accepted and the result is a value of that width. *)
Theorem unresolved_endianness_stops_build
    (m : gmap string Z) (W : Z) (f : bool -> Z -> Z) (le : bool) (x : Z) :
  m !! "HODEA_IS_CPU_LE" = None ->
  m !! "__GNUC__" = None -> m !! "__clang__" = None ->
  m !! "__CC_ARM" = None -> m !! "__ICCARM__" = None ->
  In (W, f) conversions -> is_uint W x ->
  (exists diag,
     Preproc.configure m = Preproc.BuildError diag /\
     existsb (Preproc.mentions "HODEA_IS_CPU_LE = true or false") diag
     = true) /\
  (exists y, f le x = y /\ is_uint W y).
Proof.
  intros Huser Hgnu Hclang Harm Hiar Hf Hx. split.
  - eexists. split.
    + now apply configure_unrecognized.
    + vm_compute. reflexivity.
  - eexists. split; [reflexivity|]. now apply conversion_is_uint.
Qed.

Lemma unresolved_endianness_stops_build_witness :
  Preproc.configure {[ "_MSC_VER" := 1900 ]}
  = Preproc.BuildError
      [ "Unable to detect cpu endianness via predefined macros.";
        "Please provide HODEA_IS_CPU_LE = true or false via command line."
      ]%string /\
  is_uint 64 (cpu_to_be64 true 0xFFFFFFFFFFFFFFFF).
Proof.
  assert (In (64, cpu_to_be64) conversions) as Hf
    by (cbn [conversions In]; auto 10).
  assert (is_uint 64 0xFFFFFFFFFFFFFFFF) as Hx by (unfold is_uint; lia).
  pose (msvc := ({[ "_MSC_VER" := 1900 ]} : gmap string Z)).
  assert (msvc !! "HODEA_IS_CPU_LE" = None) as Huser by reflexivity.
  assert (msvc !! "__GNUC__" = None) as Hgnu by reflexivity.
  assert (msvc !! "__clang__" = None) as Hclang by reflexivity.
  assert (msvc !! "__CC_ARM" = None) as Harm by reflexivity.
  assert (msvc !! "__ICCARM__" = None) as Hiar by reflexivity.
  destruct (unresolved_endianness_stops_build
              msvc 64 cpu_to_be64 true _
              Huser Hgnu Hclang Harm Hiar Hf Hx)
    as [(diag & Hbuild & _) (y & <- & Hy)].
  split; [|exact Hy].
  change (Preproc.configure msvc = Preproc.BuildError
    [ "Unable to detect cpu endianness via predefined macros.";
      "Please provide HODEA_IS_CPU_LE = true or false via command line."
    ]%string).
  rewrite Hbuild. vm_compute in Hbuild. congruence.
Defined.

(** C7. The all-zero and the all-one values are fixed points of every
    conversion function in either build: 0x0000 and 0xFFFF for the 16-bit
    functions, 0x00000000 and 0xFFFFFFFF for the 32-bit ones, 0 and
    0xFFFFFFFFFFFFFFFF for the 64-bit ones. *)
Theorem boundary_fixed_points (le : bool) :
  Forall (fun '(W, f) => f le 0 = 0 /\ f le (Z.ones W) = Z.ones W)
         conversions /\
  (cpu_to_be16 le 0x0000 = 0x0000 /\ cpu_to_be16 le 0xFFFF = 0xFFFF /\
   cpu_to_le16 le 0x0000 = 0x0000 /\ cpu_to_le16 le 0xFFFF = 0xFFFF) /\
  (cpu_to_be32 le 0x00000000 = 0x00000000 /\
   cpu_to_be32 le 0xFFFFFFFF = 0xFFFFFFFF /\
   cpu_to_le32 le 0x00000000 = 0x00000000 /\
   cpu_to_le32 le 0xFFFFFFFF = 0xFFFFFFFF) /\
  (cpu_to_be64 le 0 = 0 /\
   cpu_to_be64 le 0xFFFFFFFFFFFFFFFF = 0xFFFFFFFFFFFFFFFF /\
   cpu_to_le64 le 0 = 0 /\
   cpu_to_le64 le 0xFFFFFFFFFFFFFFFF = 0xFFFFFFFFFFFFFFFF).
Proof.
  destruct le; (split; [|split_all; vm_compute; reflexivity]);
    unfold conversions;
    repeat (apply List.Forall_cons; [split; vm_compute; reflexivity|]);
    apply List.Forall_nil.
Qed.

Lemma bytes_reversed_sym N x y :
  is_uint (8 * N) x -> bytes_reversed N x y -> bytes_reversed N y x.
Proof.
  intros Hx [_ Hb]. split; [exact Hx|].
  intros i Hi. specialize (Hb (N - 1 - i)).
  replace (N - 1 - (N - 1 - i)) with i in Hb by lia.
  symmetry. apply Hb. lia.
Qed.

(** C8. Converting to one order and then to the other reverses the bytes
    of the value, in either build and in either sequence: one of the two
    conversions swaps and the other does not, so the little-endian and the
    big-endian image of a value are byte reversals of each other. *)
Theorem le_be_images_reversed (le : bool) (x16 x32 x64 : Z) :
  is_uint 16 x16 -> is_uint 32 x32 -> is_uint 64 x64 ->
  (bytes_reversed 2 x16 (cpu_to_le16 le (cpu_to_be16 le x16)) /\
   bytes_reversed 4 x32 (cpu_to_le32 le (cpu_to_be32 le x32)) /\
   bytes_reversed 8 x64 (cpu_to_le64 le (cpu_to_be64 le x64))) /\
  (bytes_reversed 2 x16 (cpu_to_be16 le (cpu_to_le16 le x16)) /\
   bytes_reversed 4 x32 (cpu_to_be32 le (cpu_to_le32 le x32)) /\
   bytes_reversed 8 x64 (cpu_to_be64 le (cpu_to_le64 le x64))) /\
  (bytes_reversed 2 (cpu_to_le16 le x16) (cpu_to_be16 le x16) /\
   bytes_reversed 4 (cpu_to_le32 le x32) (cpu_to_be32 le x32) /\
   bytes_reversed 8 (cpu_to_le64 le x64) (cpu_to_be64 le x64)) /\
  xorb (is_cpu_le le) (is_cpu_be le) = true.
Proof.
  intros H16 H32 H64.
  rewrite cpu_to_le_be16, cpu_to_le_be32, cpu_to_le_be64,
          cpu_to_be_le16, cpu_to_be_le32, cpu_to_be_le64.
  pose proof (uswap16_reverses x16) as R16.
  pose proof (uswap32_reverses x32) as R32.
  pose proof (uswap64_reverses x64) as R64.
  split_all; trivial; unfold_conversions;
    destruct le; cbn [negb xorb]; trivial;
    now apply bytes_reversed_sym.
Qed.

Lemma le_be_images_reversed_witness :
  (is_uint 16 0xABCD /\ is_uint 32 0x01020304 /\
   is_uint 64 0x0102030405060708) /\
  bytes_reversed 2 0xABCD (cpu_to_le16 false (cpu_to_be16 false 0xABCD)) /\
  bytes_reversed 4 (cpu_to_le32 true 0x01020304)
                   (cpu_to_be32 true 0x01020304).
Proof.
  assert (is_uint 16 0xABCD) as H16 by (unfold is_uint; lia).
  assert (is_uint 32 0x01020304) as H32 by (unfold is_uint; lia).
  assert (is_uint 64 0x0102030405060708) as H64 by (unfold is_uint; lia).
  split; [auto|]. split.
  - apply (le_be_images_reversed false _ _ _ H16 H32 H64).
  - apply (le_be_images_reversed true _ _ _ H16 H32 H64).
Defined.

(** C9. Every conversion function commutes with the bitwise complement of
    its width, in either build: [f (~x) = ~(f x)]. *)
Theorem conversion_commutes_with_complement
    (W : Z) (f : bool -> Z -> Z) (le : bool) (x : Z) :
  In (W, f) conversions -> is_uint W x ->
  f le (bnot W x) = bnot W (f le x).
Proof.
  intros Hf _. each_conversion Hf; unfold_conversions;
    destruct le; cbn [negb]; trivial;
    first [exact (uswap16_bnot x)|exact (uswap32_bnot x)|
           exact (uswap64_bnot x)].
Qed.

Lemma conversion_commutes_with_complement_witness :
  (In (16, cpu_to_be16) conversions /\ is_uint 16 0xABCD) /\
  cpu_to_be16 true (bnot 16 0xABCD) = bnot 16 (cpu_to_be16 true 0xABCD).
Proof.
  assert (In (16, cpu_to_be16) conversions) as Hf
    by (cbn [conversions In]; auto 10).
  assert (is_uint 16 0xABCD) as Hx by (unfold is_uint; lia).
  split; [auto|].
  exact (conversion_commutes_with_complement 16 cpu_to_be16 true _ Hf Hx).
Defined.

(** * Further properties of the endianness detection *)

Ltac unfold_preproc :=
  unfold Preproc.configure, Preproc.detect, Preproc.defined,
         Preproc.value, Preproc.define in *.

(** The detection chain writes no macro but [HODEA_IS_CPU_LE]. *)
Lemma detect_frame (m : gmap string Z) (name : string) :
  name <> "HODEA_IS_CPU_LE"%string ->
  Preproc.detect m !! name = m !! name.
Proof.
  intros Hname. unfold_preproc.
  repeat case_match; trivial; now apply lookup_insert_ne.
Qed.

(** A value of [HODEA_IS_CPU_LE] is replaced at most, never removed. *)
Lemma detect_keeps_defined (m : gmap string Z) (v : Z) :
  m !! "HODEA_IS_CPU_LE" = Some v ->
  exists v', Preproc.detect m !! "HODEA_IS_CPU_LE" = Some v'.
Proof.
  intros Hv. unfold_preproc.
  repeat case_match; eauto; rewrite lookup_insert_eq; eauto.
Qed.

(** X1. With [__GNUC__] or [__clang__] defined the first branch decides,
    whatever else is defined: the build is little endian when
    [__BYTE_ORDER__] equals [__ORDER_LITTLE_ENDIAN__], and big endian when
    it does not but equals [__ORDER_BIG_ENDIAN__].  A value that the user
    gave is redefined by the branch: the compilers of the chain warn about
    the redefinition and use the new replacement. *)
Theorem configure_gnu (m : gmap string Z) :
  Preproc.defined m "__GNUC__" || Preproc.defined m "__clang__" = true ->
  (Preproc.value m "__BYTE_ORDER__"
   = Preproc.value m "__ORDER_LITTLE_ENDIAN__" ->
   Preproc.configure m = Preproc.Configured true) /\
  (Preproc.value m "__BYTE_ORDER__"
   <> Preproc.value m "__ORDER_LITTLE_ENDIAN__" ->
   Preproc.value m "__BYTE_ORDER__"
   = Preproc.value m "__ORDER_BIG_ENDIAN__" ->
   Preproc.configure m = Preproc.Configured false).
Proof.
  intros Hgnu. unfold Preproc.configure, Preproc.detect. rewrite Hgnu.
  split.
  - intros ->. rewrite Z.eqb_refl.
    unfold Preproc.defined, Preproc.value, Preproc.define.
    now rewrite lookup_insert_eq.
  - intros Hle Hbe. apply Z.eqb_neq in Hle. apply Z.eqb_eq in Hbe.
    rewrite Hle, Hbe.
    unfold Preproc.defined, Preproc.value, Preproc.define.
    now rewrite lookup_insert_eq.
Qed.

Lemma configure_gnu_witness :
  Preproc.configure
    {[ "__GNUC__" := 13; "__BYTE_ORDER__" := 4321;
       "__ORDER_LITTLE_ENDIAN__" := 1234; "__ORDER_BIG_ENDIAN__" := 4321 ]}
  = Preproc.Configured false /\
  Preproc.configure
    {[ "__clang__" := 1; "__BYTE_ORDER__" := 1234;
       "__ORDER_LITTLE_ENDIAN__" := 1234; "__ORDER_BIG_ENDIAN__" := 4321 ]}
  = Preproc.Configured true.
Proof.
  split.
  - apply configure_gnu; [reflexivity|discriminate|reflexivity].
  - apply configure_gnu; reflexivity.
Defined.

(** The value of [HODEA_IS_CPU_LE] when line 69 is reached. *)
Lemma detect_lookup (m : gmap string Z) :
  Preproc.detect m !! "HODEA_IS_CPU_LE" =
  if Preproc.defined m "__GNUC__" || Preproc.defined m "__clang__" then
    if Preproc.value m "__BYTE_ORDER__"
       =? Preproc.value m "__ORDER_LITTLE_ENDIAN__" then Some 1
    else if Preproc.value m "__BYTE_ORDER__"
            =? Preproc.value m "__ORDER_BIG_ENDIAN__" then Some 0
    else m !! "HODEA_IS_CPU_LE"
  else if Preproc.defined m "__CC_ARM" then
    if Preproc.defined m "__BIG_ENDIAN" then Some 0 else Some 1
  else if Preproc.defined m "__ICCARM__" then
    if Preproc.value m "__LITTLE_ENDIAN__" =? 0 then Some 0
    else if Preproc.value m "__LITTLE_ENDIAN__" =? 1 then Some 1
    else m !! "HODEA_IS_CPU_LE"
  else m !! "HODEA_IS_CPU_LE".
Proof.
  unfold Preproc.detect, Preproc.define.
  repeat lazymatch goal with
  | |- context [if ?b then _ else _] => destruct b
  end; trivial; apply lookup_insert_eq.
Qed.

Lemma configure_lookup (m : gmap string Z) :
  Preproc.configure m =
  match Preproc.detect m !! "HODEA_IS_CPU_LE" with
  | Some v => Preproc.Configured (negb (v =? 0))
  | None =>
      Preproc.BuildError
        [ "Unable to detect cpu endianness via predefined macros.";
          "Please provide HODEA_IS_CPU_LE = true or false via command line."
        ]%string
  end.
Proof.
  unfold Preproc.configure, Preproc.defined, Preproc.value.
  now destruct (Preproc.detect m !! "HODEA_IS_CPU_LE").
Qed.

(** X2. A GCC or clang that defines neither [__BYTE_ORDER__] nor
    [__ORDER_LITTLE_ENDIAN__] is taken for little endian without any
    diagnostic: in the [#if] both names evaluate to 0 and compare equal. *)
Theorem configure_gnu_without_byte_order (m : gmap string Z) :
  Preproc.defined m "__GNUC__" || Preproc.defined m "__clang__" = true ->
  m !! "__BYTE_ORDER__" = None ->
  m !! "__ORDER_LITTLE_ENDIAN__" = None ->
  Preproc.configure m = Preproc.Configured true.
Proof.
  intros Hgnu Hbo Hle. rewrite configure_lookup, detect_lookup, Hgnu.
  unfold Preproc.value. now rewrite Hbo, Hle.
Qed.

Lemma configure_gnu_without_byte_order_witness :
  Preproc.configure {[ "__GNUC__" := 4; "__BIG_ENDIAN__" := 1 ]}
  = Preproc.Configured true.
Proof. apply configure_gnu_without_byte_order; reflexivity. Defined.

(** X3. With the ARM compiler ([__CC_ARM], and neither [__GNUC__] nor
    [__clang__]) the build never stops: it is big endian when
    [__BIG_ENDIAN] is defined and little endian when it is not. *)
Theorem configure_armcc (m : gmap string Z) :
  Preproc.defined m "__GNUC__" || Preproc.defined m "__clang__" = false ->
  Preproc.defined m "__CC_ARM" = true ->
  Preproc.configure m
  = Preproc.Configured (negb (Preproc.defined m "__BIG_ENDIAN")).
Proof.
  intros Hgnu Harm. rewrite configure_lookup, detect_lookup, Hgnu, Harm.
  now destruct (Preproc.defined m "__BIG_ENDIAN").
Qed.

Lemma configure_armcc_witness :
  Preproc.configure {[ "__CC_ARM" := 1; "__BIG_ENDIAN" := 1 ]}
  = Preproc.Configured false /\
  Preproc.configure {[ "__CC_ARM" := 1 ]} = Preproc.Configured true.
Proof.
  split.
  - etransitivity; [apply configure_armcc; reflexivity|reflexivity].
  - etransitivity; [apply configure_armcc; reflexivity|reflexivity].
Defined.

(** X4. With the IAR compiler ([__ICCARM__] and none of the earlier
    toolchains) [__LITTLE_ENDIAN__] decides: 0, also when the macro is not
    defined, gives a big-endian build and 1 a little-endian build; with any
    other value the build stops unless the user gave [HODEA_IS_CPU_LE],
    whose value is then used. *)
Theorem configure_iar (m : gmap string Z) :
  Preproc.defined m "__GNUC__" || Preproc.defined m "__clang__" = false ->
  Preproc.defined m "__CC_ARM" = false ->
  Preproc.defined m "__ICCARM__" = true ->
  (Preproc.value m "__LITTLE_ENDIAN__" = 0 ->
   Preproc.configure m = Preproc.Configured false) /\
  (m !! "__LITTLE_ENDIAN__" = None ->
   Preproc.configure m = Preproc.Configured false) /\
  (Preproc.value m "__LITTLE_ENDIAN__" = 1 ->
   Preproc.configure m = Preproc.Configured true) /\
  (Preproc.value m "__LITTLE_ENDIAN__" <> 0 ->
   Preproc.value m "__LITTLE_ENDIAN__" <> 1 ->
   (m !! "HODEA_IS_CPU_LE" = None ->
    exists diag, Preproc.configure m = Preproc.BuildError diag) /\
   (forall v, m !! "HODEA_IS_CPU_LE" = Some v ->
    Preproc.configure m = Preproc.Configured (negb (v =? 0)))).
Proof.
  intros Hgnu Harm Hiar.
  rewrite configure_lookup, detect_lookup, Hgnu, Harm, Hiar.
  split_all.
  - now intros ->.
  - intros Hnone. unfold Preproc.value. now rewrite Hnone.
  - now intros ->.
  - intros H0 H1. apply Z.eqb_neq in H0, H1. rewrite H0, H1. split.
    + intros ->. eauto.
    + now intros v ->.
Qed.

Lemma configure_iar_witness :
  Preproc.configure {[ "__ICCARM__" := 1; "__LITTLE_ENDIAN__" := 1 ]}
  = Preproc.Configured true /\
  Preproc.configure {[ "__ICCARM__" := 1 ]} = Preproc.Configured false.
Proof.
  split.
  - apply configure_iar; reflexivity.
  - apply configure_iar; reflexivity.
Defined.

(** X5. When no toolchain is recognized, the value the user gave for
    [HODEA_IS_CPU_LE] configures the build: [true] (1, or any value other
    than 0) a little-endian one and [false] (0) a big-endian one. *)
Theorem configure_user_value (m : gmap string Z) (v : Z) :
  m !! "__GNUC__" = None -> m !! "__clang__" = None ->
  m !! "__CC_ARM" = None -> m !! "__ICCARM__" = None ->
  m !! "HODEA_IS_CPU_LE" = Some v ->
  Preproc.configure m = Preproc.Configured (negb (v =? 0)) /\
  (v = 1 -> Preproc.configure m = Preproc.Configured true) /\
  (v = 0 -> Preproc.configure m = Preproc.Configured false).
Proof.
  intros Hgnu Hclang Harm Hiar Hv.
  rewrite configure_lookup, detect_lookup. unfold Preproc.defined.
  rewrite Hgnu, Hclang, Harm, Hiar, Hv. cbn [orb].
  split_all; trivial; now intros ->.
Qed.

Lemma configure_user_value_witness :
  Preproc.configure {[ "_MSC_VER" := 1900; "HODEA_IS_CPU_LE" := 0 ]}
  = Preproc.Configured false.
Proof.
  apply (configure_user_value
           {[ "_MSC_VER" := 1900; "HODEA_IS_CPU_LE" := 0 ]} 0);
    reflexivity.
Defined.

(** X6. The build stops exactly when the user gave no value for
    [HODEA_IS_CPU_LE] and no branch of the chain gives one: GCC or clang
    with a byte order that is neither the little nor the big one; or none
    of GCC, clang and the ARM compiler, and either no IAR compiler or an
    IAR compiler whose [__LITTLE_ENDIAN__] is neither 0 nor 1.  The
    diagnostics are the same two messages every time. *)
Theorem configure_stops_iff (m : gmap string Z) :
  ((exists diag, Preproc.configure m = Preproc.BuildError diag) <->
   m !! "HODEA_IS_CPU_LE" = None /\
   ((Preproc.defined m "__GNUC__" || Preproc.defined m "__clang__" = true /\
     Preproc.value m "__BYTE_ORDER__"
     <> Preproc.value m "__ORDER_LITTLE_ENDIAN__" /\
     Preproc.value m "__BYTE_ORDER__"
     <> Preproc.value m "__ORDER_BIG_ENDIAN__") \/
    (Preproc.defined m "__GNUC__" || Preproc.defined m "__clang__" = false /\
     Preproc.defined m "__CC_ARM" = false /\
     (Preproc.defined m "__ICCARM__" = false \/
      Preproc.value m "__LITTLE_ENDIAN__" <> 0 /\
      Preproc.value m "__LITTLE_ENDIAN__" <> 1)))) /\
  (forall diag,
     Preproc.configure m = Preproc.BuildError diag ->
     diag =
     [ "Unable to detect cpu endianness via predefined macros.";
       "Please provide HODEA_IS_CPU_LE = true or false via command line."
     ]%string).
Proof.
  rewrite configure_lookup, detect_lookup.
  destruct (Preproc.defined m "__GNUC__" || Preproc.defined m "__clang__");
    [|destruct (Preproc.defined m "__CC_ARM");
      [|destruct (Preproc.defined m "__ICCARM__")]];
    repeat lazymatch goal with
    | |- context [?a =? ?b] => destruct (Z.eqb_spec a b)
    end;
    try destruct (Preproc.defined m "__BIG_ENDIAN");
    try destruct (m !! "HODEA_IS_CPU_LE") as [v|];
    (split; [split|]);
    try (intros [diag Hd]; discriminate Hd);
    try (intros diag Hd; first [discriminate Hd|now injection Hd]);
    try (intros _; now eauto);
    try (intros _; split; [reflexivity|]; tauto);
    intros [Hu Hcase]; try discriminate Hu;
    exfalso; intuition congruence.
Qed.

(** X7. A value of [HODEA_IS_CPU_LE] from the user is enough for the build
    to go on, with any toolchain and any other macros. *)
Theorem configure_with_user_value_builds (m : gmap string Z) (v : Z) :
  m !! "HODEA_IS_CPU_LE" = Some v ->
  exists le, Preproc.configure m = Preproc.Configured le.
Proof.
  intros Hv. rewrite configure_lookup.
  destruct (detect_keeps_defined m v Hv) as [v' ->]. eauto.
Qed.

Lemma configure_with_user_value_builds_witness :
  exists le,
    Preproc.configure
      {[ "__GNUC__" := 13; "__BYTE_ORDER__" := 3412;
         "__ORDER_LITTLE_ENDIAN__" := 1234; "__ORDER_BIG_ENDIAN__" := 4321;
         "HODEA_IS_CPU_LE" := 1 ]}
    = Preproc.Configured le.
Proof.
  apply (configure_with_user_value_builds _ 1). reflexivity.
Defined.

(** X8. The chain writes [HODEA_IS_CPU_LE] and nothing else: every other
    macro has its old definition, or none, when line 69 is reached; and a
    [HODEA_IS_CPU_LE] that the chain writes is 0 or 1. *)
Theorem detect_writes_only_cpu_le (m : gmap string Z) (name : string) :
  name <> "HODEA_IS_CPU_LE"%string ->
  Preproc.detect m !! name = m !! name /\
  (Preproc.detect m !! "HODEA_IS_CPU_LE" = m !! "HODEA_IS_CPU_LE" \/
   Preproc.detect m !! "HODEA_IS_CPU_LE" = Some 0 \/
   Preproc.detect m !! "HODEA_IS_CPU_LE" = Some 1).
Proof.
  intros Hname. split; [now apply detect_frame|].
  rewrite detect_lookup.
  repeat lazymatch goal with
  | |- context [if ?b then _ else _] => destruct b
  end; auto.
Qed.

Lemma detect_writes_only_cpu_le_witness :
  Preproc.detect {[ "__CC_ARM" := 1 ]} !! "__CC_ARM"
  = ({[ "__CC_ARM" := 1 ]} : gmap string Z) !! "__CC_ARM".
Proof.
  apply (detect_writes_only_cpu_le {[ "__CC_ARM" := 1 ]} "__CC_ARM").
  discriminate.
Defined.

(** X9. The outcome depends on the ten inspected macros only: two macro
    tables that agree on them give the same outcome. *)
Theorem configure_reads_inspected_only (m1 m2 : gmap string Z) :
  Forall (fun name => m1 !! name = m2 !! name) inspected ->
  Preproc.configure m1 = Preproc.configure m2.
Proof.
  intros Hsame. unfold inspected in Hsame.
  repeat lazymatch type of Hsame with
  | Forall _ (_ :: _) =>
      let H := fresh "Hk" in
      apply List.Forall_cons_iff in Hsame as [H Hsame]
  end.
  rewrite !configure_lookup, !detect_lookup.
  unfold Preproc.defined, Preproc.value.
  now rewrite Hk, Hk0, Hk1, Hk2, Hk3, Hk4, Hk5, Hk6, Hk7, Hk8.
Qed.

Lemma configure_reads_inspected_only_witness :
  Preproc.configure
    {[ "__GNUC__" := 13; "__BYTE_ORDER__" := 1234;
       "__ORDER_LITTLE_ENDIAN__" := 1234; "__ORDER_BIG_ENDIAN__" := 4321 ]}
  = Preproc.configure
    {[ "__GNUC__" := 13; "__BYTE_ORDER__" := 1234;
       "__ORDER_LITTLE_ENDIAN__" := 1234; "__ORDER_BIG_ENDIAN__" := 4321;
       "__linux__" := 1; "NDEBUG" := 1 ]}.
Proof.
  apply configure_reads_inspected_only.
  unfold inspected.
  repeat (apply List.Forall_cons; [reflexivity|]).
  apply List.Forall_nil.
Defined.

(** * The HAL headers *)

(** X10. The two HAL headers accept the same devices: each includes the
    header of its brand exactly when [HODEA_DERIVED_CONFIG_BRAND_STM32] is
    defined, also when the imx_m4 brand is defined beside it, and what is
    included is a header of the stm32 directory. *)
Theorem hal_headers_accept_same_devices (m : gmap string Z) :
  ((exists header, Hal.hal_pin_config m = Hal.Include header) <->
   Preproc.defined m "HODEA_DERIVED_CONFIG_BRAND_STM32" = true) /\
  ((exists header, Hal.retarget_stdout_uart m = Hal.Include header) <->
   Preproc.defined m "HODEA_DERIVED_CONFIG_BRAND_STM32" = true) /\
  (forall header,
     Hal.hal_pin_config m = Hal.Include header \/
     Hal.retarget_stdout_uart m = Hal.Include header ->
     String.prefix "hodea/device/stm32/" header = true).
Proof.
  unfold Hal.hal_pin_config, Hal.retarget_stdout_uart.
  destruct (Preproc.defined m "HODEA_DERIVED_CONFIG_BRAND_STM32");
    destruct (Preproc.defined m "HODEA_DERIVED_CONFIG_BRAND_IMX_M4");
    split_all;
    try (split; [reflexivity|eauto]);
    try (split; [intros [header Hh]; discriminate Hh|discriminate]);
    intros header [Hh|Hh]; try discriminate Hh;
    injection Hh as <-; reflexivity.
Qed.

(** * Further properties of the conversion functions *)

Ltac uswap_facts :=
  first
    [ lia
    | apply uswap16_nonneg | apply uswap32_nonneg | apply uswap64_nonneg
    | apply testbit_uswap16_byte | apply testbit_uswap32_byte
    | apply testbit_uswap64_byte
    | apply testbit_uswap16_high | apply testbit_uswap32_high
    | apply testbit_uswap64_high ].

Lemma uswap16_bitwise x y :
  uswap16 (Z.land x y) = Z.land (uswap16 x) (uswap16 y) /\
  uswap16 (Z.lor x y) = Z.lor (uswap16 x) (uswap16 y) /\
  uswap16 (Z.lxor x y) = Z.lxor (uswap16 x) (uswap16 y).
Proof.
  split_all;
    [apply (swap_land 2)|apply (swap_lor 2)|apply (swap_lxor 2)];
    uswap_facts.
Qed.

Lemma uswap32_bitwise x y :
  uswap32 (Z.land x y) = Z.land (uswap32 x) (uswap32 y) /\
  uswap32 (Z.lor x y) = Z.lor (uswap32 x) (uswap32 y) /\
  uswap32 (Z.lxor x y) = Z.lxor (uswap32 x) (uswap32 y).
Proof.
  split_all;
    [apply (swap_land 4)|apply (swap_lor 4)|apply (swap_lxor 4)];
    uswap_facts.
Qed.

Lemma uswap64_bitwise x y :
  uswap64 (Z.land x y) = Z.land (uswap64 x) (uswap64 y) /\
  uswap64 (Z.lor x y) = Z.lor (uswap64 x) (uswap64 y) /\
  uswap64 (Z.lxor x y) = Z.lxor (uswap64 x) (uswap64 y).
Proof.
  split_all;
    [apply (swap_land 8)|apply (swap_lor 8)|apply (swap_lxor 8)];
    uswap_facts.
Qed.

Lemma conversion_twice W f le x :
  In (W, f) conversions -> is_uint W x -> f le (f le x) = x.
Proof.
  intros Hf Hx. each_conversion Hf; unfold_conversions;
    destruct le; cbn [negb]; trivial;
    lazymatch goal with
    | |- uswap16 _ = _ => now apply uswap16_involutive
    | |- uswap32 _ = _ => now apply uswap32_involutive
    | |- uswap64 _ = _ => now apply uswap64_involutive
    end.
Qed.

(** X12. No conversion function maps two different values of its width to
    the same result, in either build; so a converted value always
    determines the original.  (With the byte swap of uswap.hpp modelled as
    the byte reversal.) *)
Theorem conversion_injective
    (W : Z) (f : bool -> Z -> Z) (le : bool) (x y : Z) :
  In (W, f) conversions -> is_uint W x -> is_uint W y ->
  x <> y -> f le x <> f le y.
Proof.
  intros Hf Hx Hy Hxy Heq. apply Hxy.
  rewrite <- (conversion_twice W f le x Hf Hx),
          <- (conversion_twice W f le y Hf Hy).
  now rewrite Heq.
Qed.

Lemma conversion_injective_witness :
  (In (16, cpu_to_be16) conversions /\ is_uint 16 0x0102 /\
   is_uint 16 0x0201 /\ 0x0102 <> 0x0201) /\
  cpu_to_be16 true 0x0102 <> cpu_to_be16 true 0x0201.
Proof.
  assert (In (16, cpu_to_be16) conversions) as Hf
    by (cbn [conversions In]; auto 10).
  assert (is_uint 16 0x0102) as Hx by (unfold is_uint; lia).
  assert (is_uint 16 0x0201) as Hy by (unfold is_uint; lia).
  assert (0x0102 <> 0x0201) as Hxy by discriminate.
  split; [auto|].
  exact (conversion_injective 16 cpu_to_be16 true _ _ Hf Hx Hy Hxy).
Defined.

(** X13. Every conversion function goes through the bitwise operators
    [&], [|] and [^], in either build: converting the combination of two
    values is combining their conversions, so masks and flags can be
    applied before or after the conversion.  (With the byte swap of
    uswap.hpp modelled as the byte reversal.) *)
Theorem conversion_commutes_with_bitwise
    (W : Z) (f : bool -> Z -> Z) (le : bool) (x y : Z) :
  In (W, f) conversions -> is_uint W x -> is_uint W y ->
  f le (Z.land x y) = Z.land (f le x) (f le y) /\
  f le (Z.lor x y) = Z.lor (f le x) (f le y) /\
  f le (Z.lxor x y) = Z.lxor (f le x) (f le y).
Proof.
  intros Hf _ _. each_conversion Hf; unfold_conversions;
    destruct le; cbn [negb];
    lazymatch goal with
    | |- uswap16 _ = _ /\ _ => apply uswap16_bitwise
    | |- uswap32 _ = _ /\ _ => apply uswap32_bitwise
    | |- uswap64 _ = _ /\ _ => apply uswap64_bitwise
    | |- _ => split_all; reflexivity
    end.
Qed.

Lemma conversion_commutes_with_bitwise_witness :
  (In (32, cpu_to_le32) conversions /\ is_uint 32 0x01020304 /\
   is_uint 32 0x00FF0000) /\
  cpu_to_le32 false (Z.land 0x01020304 0x00FF0000)
  = Z.land (cpu_to_le32 false 0x01020304) (cpu_to_le32 false 0x00FF0000).
Proof.
  assert (In (32, cpu_to_le32) conversions) as Hf
    by (cbn [conversions In]; auto 10).
  assert (is_uint 32 0x01020304) as Hx by (unfold is_uint; lia).
  assert (is_uint 32 0x00FF0000) as Hy by (unfold is_uint; lia).
  split; [auto|].
  apply (conversion_commutes_with_bitwise 32 cpu_to_le32 false _ _ Hf Hx Hy).
Defined.

(** X14. The two builds mirror each other: converting to little endian in
    one build is converting to big endian in the build of the opposite
    endianness, for every width and in both directions, whatever the byte
    swap does. *)
Theorem opposite_builds_mirror (le : bool) (x : Z) :
  (cpu_to_le16 le x = cpu_to_be16 (negb le) x /\
   cpu_to_le32 le x = cpu_to_be32 (negb le) x /\
   cpu_to_le64 le x = cpu_to_be64 (negb le) x) /\
  (le16_to_cpu le x = be16_to_cpu (negb le) x /\
   le32_to_cpu le x = be32_to_cpu (negb le) x /\
   le64_to_cpu le x = be64_to_cpu (negb le) x) /\
  is_cpu_le le = is_cpu_be (negb le).
Proof. destruct le; split_all; reflexivity. Qed.
